(** * rewrite_to_local: a mitmproxy request hook, verified

  Shallow embedding of [mitmproxy/rewrite_to_local/main.py].

  The script is a mitmproxy addon.  Its [request] hook receives the
  in-flight flow, compares [req.pretty_host] and [req.path] with one
  hard-wired rule and, on a match, mutates the request object in place
  so that it is sent to a local endpoint; every call ends with one
  [ctx.log.info].

  Layout:
  - [PyStr]   : the Python string operations the script uses;
  - [Mitm]    : the part of mitmproxy's [http.Request] / [Headers] API
                the script touches (attribute reads, property setters
                with their side effects on the [Host] header and on
                the authority);
  - [Hook]    : a state-and-exception monad over the flow and the log;
  - the script itself: [Config], [MATCH_PREFIX], [request], [response];
  - the theorems. *)

From Stdlib Require Import String Ascii List Bool Arith ZArith Lia.
From Stdlib Require Import DecimalString.
Import ListNotations.

Local Open Scope list_scope.
Local Open Scope string_scope.

(* ------------------------------------------------------------------ *)
(** ** Python string operations *)

Module PyStr.

(** [s.startswith(p)] *)
Definition startswith (s p : string) : bool := String.prefix p s.

(** [s[n:]] for [0 <= n]: drop the first [n] characters (the empty
    string when [s] is shorter). *)
Fixpoint slice_from (n : nat) (s : string) : string :=
  match n, s with
  | O, _ => s
  | S _, EmptyString => EmptyString
  | S n', String _ s' => slice_from n' s'
  end.

(** [bytes.lower()]: ASCII letters only. *)
Definition lower_ascii (c : ascii) : ascii :=
  let n := nat_of_ascii c in
  if (65 <=? n)%nat && (n <=? 90)%nat then ascii_of_nat (n + 32) else c.

Fixpoint lower (s : string) : string :=
  match s with
  | EmptyString => EmptyString
  | String c s' => String (lower_ascii c) (lower s')
  end.

(** [sep.join(xs)] *)
Fixpoint join (sep : string) (xs : list string) : string :=
  match xs with
  | [] => ""
  | [x] => x
  | x :: rest => x ++ sep ++ join sep rest
  end.

(** ["%d" % z] and [f"{z}"] for an [int]. *)
Definition str_int (z : Z) : string := NilZero.string_of_int (Z.to_int z).

(** Truthiness of a [str]: non-empty. *)
Definition truthy (s : string) : bool :=
  match s with EmptyString => false | _ => true end.

End PyStr.

(* ------------------------------------------------------------------ *)
(** ** The mitmproxy request object *)

Module Mitm.
Import PyStr.

(** [mitmproxy.http.Headers]: an ordered multi-dict; field names are
    compared case-insensitively ([_kconv] is [lower]), duplicates are
    allowed and their order is kept. *)
Definition Headers := list (string * string).

Definition same_name (key : string) (field : string * string) : bool :=
  lower (fst field) =? lower key.

(** [headers.get_all(key)] *)
Definition get_all (key : string) (hs : Headers) : list string :=
  map snd (filter (same_name key) hs).

(** [key in headers] *)
Definition contains (key : string) (hs : Headers) : bool :=
  existsb (same_name key) hs.

(** [headers.get(key, None)]: the values joined by [", "]. *)
Definition get (key : string) (hs : Headers) : option string :=
  match get_all key hs with
  | [] => None
  | vs => Some (join ", " vs)
  end.

(** The fields of [hs] not named [key]. *)
Definition others (key : string) (hs : Headers) : Headers :=
  filter (fun f => negb (same_name key f)) hs.

(** [headers[key] = value], i.e. [set_all(key, [value])]: the first
    field named [key] keeps its place and spelling and takes the new
    value, later fields of that name are dropped, and the field is
    appended when there was none. *)
Fixpoint setitem (key value : string) (hs : Headers) : Headers :=
  match hs with
  | [] => [(key, value)]
  | f :: rest =>
      if same_name key f then (fst f, value) :: others key rest
      else f :: setitem key value rest
  end.

(** The attributes of [http.Request] a hook can observe. *)
Record Request := mkRequest {
  method : string;
  scheme : string;
  authority : string;     (* request-target authority / [:authority]; may be empty *)
  host : string;
  port : Z;
  path : string;          (* path and query: everything after the authority *)
  http_version : string;
  headers : Headers;
  content : string        (* the body *)
}.

(** [url.default_port(scheme)] *)
Definition default_port (sch : string) : option Z :=
  if sch =? "http" then Some 80%Z
  else if sch =? "https" then Some 443%Z
  else None.

(** [url.hostport(scheme, host, port)] *)
Definition hostport (sch h : string) (p : Z) : string :=
  match default_port sch with
  | Some d => if (d =? p)%Z then h else h ++ ":" ++ str_int p
  | None => h ++ ":" ++ str_int p
  end.

(** [req.url] *)
Definition url (r : Request) : string :=
  if method r =? "CONNECT" then host r ++ ":" ++ str_int (port r)
  else
    let p := if path r =? "*" then "" else path r in
    scheme r ++ "://" ++ hostport (scheme r) (host r) (port r) ++ p.

(** [req.is_http2], [req.is_http3] *)
Definition is_http2 (r : Request) : bool := http_version r =? "HTTP/2.0".
Definition is_http3 (r : Request) : bool := http_version r =? "HTTP/3".

(** [req.host_header]: on HTTP/2 and HTTP/3 a non-empty authority comes
    before the [Host] header ([self.authority or headers.get("Host")]);
    on HTTP/1 only the header is read. *)
Definition host_header (r : Request) : option string :=
  if is_http2 r || is_http3 r
  then if truthy (authority r) then Some (authority r)
       else get "Host" (headers r)
  else get "Host" (headers r).

Section PrettyHost.
(** [url.parse_authority(a, check=False)[0]]: the host part of a
    [Host] header or authority value.  Its grammar and validity checks are
    mitmproxy's; nothing below depends on them. *)
Variable parse_authority : string -> string.

(** [req.pretty_host]: a non-empty [host_header] is preferred over
    [req.host]. *)
Definition pretty_host (r : Request) : string :=
  match host_header r with
  | Some a => if truthy a then parse_authority a else host r
  | None => host r
  end.
End PrettyHost.

(** *** Setters *)

Definition with_headers (hs : Headers) (r : Request) : Request :=
  mkRequest (method r) (scheme r) (authority r) (host r) (port r) (path r)
            (http_version r) hs (content r).

Definition with_authority (a : string) (r : Request) : Request :=
  mkRequest (method r) (scheme r) a (host r) (port r) (path r)
            (http_version r) (headers r) (content r).

(** [req._update_host_and_authority()]: an existing [Host] header and a
    non-empty authority follow the new destination. *)
Definition update_host_and_authority (r : Request) : Request :=
  let val := hostport (scheme r) (host r) (port r) in
  let r1 := if contains "Host" (headers r)
            then with_headers (setitem "Host" val (headers r)) r
            else r in
  if truthy (authority r1) then with_authority val r1 else r1.

(** [req.path = v] *)
Definition set_path (v : string) (r : Request) : Request :=
  mkRequest (method r) (scheme r) (authority r) (host r) (port r) v
            (http_version r) (headers r) (content r).

(** [req.host = v] *)
Definition set_host (v : string) (r : Request) : Request :=
  update_host_and_authority
    (mkRequest (method r) (scheme r) (authority r) v (port r) (path r)
               (http_version r) (headers r) (content r)).

(** [req.port = v] *)
Definition set_port (v : Z) (r : Request) : Request :=
  update_host_and_authority
    (mkRequest (method r) (scheme r) (authority r) (host r) v (path r)
               (http_version r) (headers r) (content r)).

(** [req.scheme = v] *)
Definition set_scheme (v : string) (r : Request) : Request :=
  mkRequest (method r) v (authority r) (host r) (port r) (path r)
            (http_version r) (headers r) (content r).

(** [req.headers[key] = v] *)
Definition set_header (key v : string) (r : Request) : Request :=
  with_headers (setitem key v (headers r)) r.

(** The query string of a request target, as [urllib.parse.urlsplit]
    cuts it: drop the fragment after the first [#], then take what
    follows the first [?]. *)
Fixpoint before (d : ascii) (s : string) : string :=
  match s with
  | EmptyString => EmptyString
  | String c s' => if Ascii.eqb c d then EmptyString else String c (before d s')
  end.

Fixpoint after (d : ascii) (s : string) : string :=
  match s with
  | EmptyString => EmptyString
  | String c s' => if Ascii.eqb c d then s' else after d s'
  end.


End Mitm.

(* ------------------------------------------------------------------ *)
(** ** Hooks: state and exceptions *)

Module Hook.
Import Mitm.

(** What the script logs through [ctx.log.info].  The constructor is the
    kind of record, its arguments are the values interpolated into the
    f-string. *)
Inductive LogRecord :=
| Rewritten (meth from_url to_url : string)
| Ignored (meth pretty path_ : string).

(** The text handed to [ctx.log.info]. *)
Definition message (r : LogRecord) : string :=
  match r with
  | Rewritten m u t => "↪ " ++ m ++ " " ++ u ++ " → " ++ t
  | Ignored m h p => "[MITM] Ignored " ++ m ++ " " ++ h ++ p
  end.

(** The mutable objects a hook call can reach: the request of the flow
    it was given, and the proxy's log. *)
Record World := mkWorld {
  flow_request : Request;
  ctx_log : list LogRecord
}.

Inductive Exn := Exception (what : string).

Inductive Result (A : Type) :=
| Returned (a : A)
| Raised (e : Exn).
Arguments Returned {A} a.
Arguments Raised {A} e.

(** A Python computation: it runs on the world, mutates it, and either
    returns or raises.  Mutations made before a raise stay. *)
Definition M (A : Type) : Type := World -> Result A * World.

Definition ret {A} (a : A) : M A := fun w => (Returned a, w).

Definition bind {A B} (c : M A) (k : A -> M B) : M B :=
  fun w =>
    match c w with
    | (Returned a, w') => k a w'
    | (Raised e, w') => (Raised e, w')
    end.

Definition raise {A} (e : Exn) : M A := fun w => (Raised e, w).

(** Reading an attribute of [flow.request]. *)
Definition attr {A} (f : Request -> A) : M A :=
  fun w => (Returned (f (flow_request w)), w).

(** Assigning to an attribute of [flow.request]. *)
Definition assign (upd : Request -> Request) : M unit :=
  fun w => (Returned tt, mkWorld (upd (flow_request w)) (ctx_log w)).

(** What the script takes from the proxy it is loaded into. *)
Record Runtime := mkRuntime {
  parse_authority : string -> string;
  log_info : LogRecord -> M unit
}.

(** mitmproxy's logger: the record is appended to the log. *)
Definition append_log (r : LogRecord) : M unit :=
  fun w => (Returned tt, mkWorld (flow_request w) (ctx_log w ++ [r])).

(** mitmproxy, for any authority parser. *)
Definition mitmproxy (pa : string -> string) : Runtime :=
  mkRuntime pa append_log.

(** A proxy whose logger raises. *)
Definition broken_logger (pa : string -> string) (e : Exn) : Runtime :=
  mkRuntime pa (fun _ => raise e).

End Hook.

Declare Scope hook_scope.
Delimit Scope hook_scope with hook.
Notation "x <- c ;; k" := (Hook.bind c (fun x => k))
  (at level 61, c at next level, right associativity) : hook_scope.
Notation "c ;; k" := (Hook.bind c (fun _ => k))
  (at level 61, right associativity) : hook_scope.

(* ------------------------------------------------------------------ *)
(** ** The script *)

Import PyStr Mitm Hook.

(** The module-level values read from the environment at import. *)
Record Config := mkConfig {
  STAGING_HOST : string;
  LOCAL_ADDRESS : string;
  LOCAL_PORT : Z
}.

(** The fallbacks of the three [os.getenv] calls. *)
Definition default_config : Config :=
  mkConfig "staging.api.example.com" "127.0.0.1" 5000.

Definition MATCH_PREFIX : string := "/stg/v1/ubah-izin/".

(** The test of the [if]: Python's [==] on [str] and [startswith]. *)
Definition rule_matches (rt : Runtime) (cfg : Config) (req : Request) : bool :=
  (pretty_host (parse_authority rt) req =? STAGING_HOST cfg)
  && startswith (path req) MATCH_PREFIX.

(** [def request(flow)] *)
Definition request (rt : Runtime) (cfg : Config) : M unit :=
  (matched <- attr (rule_matches rt cfg) ;;
   if matched then
     p <- attr path ;;
     let trimmed_path := slice_from (String.length MATCH_PREFIX - 1) p in
     assign (set_path trimmed_path) ;;
     assign (set_host (LOCAL_ADDRESS cfg)) ;;
     assign (set_port (LOCAL_PORT cfg)) ;;
     assign (set_scheme "http") ;;
     assign (set_header "Host" (STAGING_HOST cfg)) ;;
     m <- attr method ;;
     u <- attr url ;;
     p' <- attr path ;;
     log_info rt
       (Rewritten m u
          ("http://" ++ LOCAL_ADDRESS cfg ++ ":" ++ str_int (LOCAL_PORT cfg) ++ p'))
   else
     m <- attr method ;;
     h <- attr (pretty_host (parse_authority rt)) ;;
     p <- attr path ;;
     log_info rt (Ignored m h p))%hook.

(** [def response(flow): pass] *)
Definition response : M unit := ret tt.

(** The request object after the five assignments of the matched
    branch, in the order the script makes them. *)
Definition rewritten (cfg : Config) (req : Request) : Request :=
  let trimmed_path := slice_from (String.length MATCH_PREFIX - 1) (path req) in
  set_header "Host" (STAGING_HOST cfg)
    (set_scheme "http"
       (set_port (LOCAL_PORT cfg)
          (set_host (LOCAL_ADDRESS cfg)
             (set_path trimmed_path req)))).

(** The world a computation leaves, and how it ended. *)
Definition exec {A} (c : M A) (w : World) : World := snd (c w).
Definition outcome {A} (c : M A) (w : World) : Result A := fst (c w).

(** The request object after one call of the hook under mitmproxy. *)
Definition request_after (pa : string -> string) (cfg : Config) (w : World)
  : Request :=
  flow_request (exec (request (mitmproxy pa) cfg) w).

(** The records one call of the hook under mitmproxy leaves in the log. *)
Definition log_after (pa : string -> string) (cfg : Config) (w : World)
  : list LogRecord :=
  ctx_log (exec (request (mitmproxy pa) cfg) w).

(** The decision of the last call, read off the log. *)
Definition last_rewrote (l : list LogRecord) : bool :=
  match rev l with
  | Rewritten _ _ _ :: _ => true
  | _ => false
  end.

(** *** Concrete data for the examples *)

Definition is_digit (c : ascii) : bool :=
  let n := nat_of_ascii c in (48 <=? n)%nat && (n <=? 57)%nat.

Fixpoint all_digits (s : string) : bool :=
  match s with
  | EmptyString => true
  | String c s' => is_digit c && all_digits s'
  end.

(** An authority parser for plain [host] and [host:port] values: the
    port is cut off, anything else is returned as it is. *)
Definition authority_host (a : string) : string :=
  let h := before ":" a in
  let p := after ":" a in
  if a =? h then a
  else if truthy h && truthy p && all_digits p && (a =? h ++ ":" ++ p)
       then h else a.

(** [GET http://staging.api.example.com/stg/v1/ubah-izin/apply] *)
Definition staging_request : Request :=
  mkRequest "GET" "http" "" "staging.api.example.com" 80
            "/stg/v1/ubah-izin/apply" "HTTP/1.1"
            [("Host", "staging.api.example.com"); ("Accept", "*/*")] "".

(** The same request, host spelled in capitals. *)
Definition capitals_request : Request :=
  mkRequest "GET" "http" "" "STAGING.API.EXAMPLE.COM" 80
            "/stg/v1/ubah-izin/apply" "HTTP/1.1"
            [("Host", "STAGING.API.EXAMPLE.COM"); ("Accept", "*/*")] "".

(** [POST https://staging.api.example.com:8443/stg/v1/ubah-izin/apply?dry=1],
    with a second header and a body. *)
Definition secure_request : Request :=
  mkRequest "POST" "https" "" "staging.api.example.com" 8443
            "/stg/v1/ubah-izin/apply?dry=1" "HTTP/1.1"
            [("user-agent", "curl/8"); ("host", "staging.api.example.com:8443");
             ("Content-Type", "application/json")]
            "{}".

(** The same target reached through an address, as in transparent mode:
    only the [Host] header names the staging host. *)
Definition transparent_request : Request :=
  mkRequest "GET" "http" "" "10.0.0.7" 80
            "/stg/v1/ubah-izin/apply" "HTTP/1.1"
            [("Host", "staging.api.example.com")] "".

(** A request for another site. *)
Definition other_request : Request :=
  mkRequest "GET" "https" "" "example.org" 443 "/index.html" "HTTP/1.1"
            [("Host", "example.org")] "".

(** [s[:n]] for [0 <= n]: the first [n] characters (all of [s] when it
    is shorter). *)
Fixpoint slice_to (n : nat) (s : string) : string :=
  match n, s with
  | O, _ => EmptyString
  | S _, EmptyString => EmptyString
  | S n', String c s' => String c (slice_to n' s')
  end.

(** A request for the staging host whose path repeats the prefix. *)
Definition nested_request : Request :=
  mkRequest "GET" "http" "" "staging.api.example.com" 80
            "/stg/v1/ubah-izin/stg/v1/ubah-izin/apply" "HTTP/1.1"
            [("Host", "staging.api.example.com")] "".

(** A request for the staging host that names the prefix without its
    final slash. *)
Definition stem_request : Request :=
  mkRequest "GET" "http" "" "staging.api.example.com" 80
            "/stg/v1/ubah-izin" "HTTP/1.1"
            [("Host", "staging.api.example.com")] "".


(** The scenario request over HTTP/2: [:authority] and no [Host]
    header. *)
Definition h2_request : Request :=
  mkRequest "GET" "https" "staging.api.example.com"
            "staging.api.example.com" 443
            "/stg/v1/ubah-izin/apply" "HTTP/2.0"
            [("accept", "*/*")] "".

(** The side effect of the host and port assignments on the authority
    of a request whose authority was [a] and whose scheme was [sch]. *)
Definition authority_after (cfg : Config) (sch a : string) (p : Z) : string :=
  if truthy a
  then if truthy (hostport sch (LOCAL_ADDRESS cfg) p)
       then hostport sch (LOCAL_ADDRESS cfg) (LOCAL_PORT cfg)
       else ""
  else "".

(* ------------------------------------------------------------------ *)
(** ** Strings *)

Lemma startswith_split (s p : string) :
  startswith s p = true <-> exists rest, s = p ++ rest.
Proof.
  unfold startswith. revert s.
  induction p as [|c p IH]; intros s; simpl.
  - split; [exists s; reflexivity | intros _; destruct s; reflexivity].
  - destruct s as [|d s]; simpl.
    + split; [discriminate | intros [rest H]; discriminate].
    + destruct (ascii_dec c d) as [->|Hcd].
      * rewrite IH. split; intros [rest H]; exists rest.
        -- now rewrite H.
        -- now inversion H.
      * split; [discriminate | intros [rest H]; inversion H; congruence].
Qed.

Lemma slice_match_prefix (rest : string) :
  slice_from (String.length MATCH_PREFIX - 1) (MATCH_PREFIX ++ rest)
  = "/" ++ rest.
Proof. reflexivity. Qed.


(* ------------------------------------------------------------------ *)
(** ** Headers *)

Lemma same_name_fst (k : string) (f : string * string) (v : string) :
  same_name k (fst f, v) = same_name k f.
Proof. reflexivity. Qed.

Lemma filter_same_others (k : string) (hs : Headers) :
  filter (same_name k) (others k hs) = [].
Proof.
  unfold others. induction hs as [|f hs IH]; simpl; [reflexivity|].
  destruct (same_name k f) eqn:E; simpl; [assumption|].
  now rewrite E.
Qed.

Lemma others_idem (k : string) (hs : Headers) :
  others k (others k hs) = others k hs.
Proof.
  unfold others. induction hs as [|f hs IH]; simpl; [reflexivity|].
  destruct (same_name k f) eqn:E; simpl; [assumption|].
  rewrite E. simpl. now rewrite IH.
Qed.

Lemma get_all_setitem (k v : string) (hs : Headers) :
  get_all k (setitem k v hs) = [v].
Proof.
  unfold get_all. induction hs as [|f hs IH]; simpl.
  - unfold same_name. simpl. now rewrite String.eqb_refl.
  - destruct (same_name k f) eqn:E; simpl.
    + rewrite same_name_fst, E. simpl. now rewrite filter_same_others.
    + now rewrite E.
Qed.

Lemma get_setitem (k v : string) (hs : Headers) :
  get k (setitem k v hs) = Some v.
Proof. unfold get. now rewrite get_all_setitem. Qed.

Lemma others_setitem (k v : string) (hs : Headers) :
  others k (setitem k v hs) = others k hs.
Proof.
  induction hs as [|f hs IH]; simpl.
  - unfold same_name. simpl. now rewrite String.eqb_refl.
  - destruct (same_name k f) eqn:E; simpl.
    + rewrite same_name_fst, E. simpl. apply others_idem.
    + rewrite E. simpl. now rewrite IH.
Qed.


(* ------------------------------------------------------------------ *)
(** ** Setters *)

Lemma update_frame (r : Request) :
  method (update_host_and_authority r) = method r /\
  scheme (update_host_and_authority r) = scheme r /\
  host (update_host_and_authority r) = host r /\
  port (update_host_and_authority r) = port r /\
  path (update_host_and_authority r) = path r /\
  http_version (update_host_and_authority r) = http_version r /\
  content (update_host_and_authority r) = content r.
Proof.
  unfold update_host_and_authority.
  destruct (contains "Host" (headers r)); cbn [authority with_headers];
    destruct (truthy (authority r)); repeat split.
Qed.

Lemma update_headers (r : Request) :
  headers (update_host_and_authority r)
  = if contains "Host" (headers r)
    then setitem "Host" (hostport (scheme r) (host r) (port r)) (headers r)
    else headers r.
Proof.
  unfold update_host_and_authority.
  destruct (contains "Host" (headers r)); cbn [authority with_headers];
    destruct (truthy (authority r)); reflexivity.
Qed.

Lemma update_authority (r : Request) :
  authority (update_host_and_authority r)
  = if truthy (authority r) then hostport (scheme r) (host r) (port r)
    else authority r.
Proof.
  unfold update_host_and_authority.
  destruct (contains "Host" (headers r)); cbn [authority with_headers];
    destruct (truthy (authority r)); reflexivity.
Qed.

Lemma update_others (r : Request) :
  others "Host" (headers (update_host_and_authority r))
  = others "Host" (headers r).
Proof.
  rewrite update_headers.
  destruct (contains "Host" (headers r)); [apply others_setitem | reflexivity].
Qed.

Lemma set_host_fields (v : string) (r : Request) :
  method (set_host v r) = method r /\ scheme (set_host v r) = scheme r /\
  host (set_host v r) = v /\ port (set_host v r) = port r /\
  path (set_host v r) = path r /\
  http_version (set_host v r) = http_version r /\
  content (set_host v r) = content r.
Proof.
  unfold set_host.
  match goal with
  | |- context [update_host_and_authority ?x] => exact (update_frame x)
  end.
Qed.

Lemma set_port_fields (v : Z) (r : Request) :
  method (set_port v r) = method r /\ scheme (set_port v r) = scheme r /\
  host (set_port v r) = host r /\ port (set_port v r) = v /\
  path (set_port v r) = path r /\
  http_version (set_port v r) = http_version r /\
  content (set_port v r) = content r.
Proof.
  unfold set_port.
  match goal with
  | |- context [update_host_and_authority ?x] => exact (update_frame x)
  end.
Qed.

(** The projections of [rewritten] in terms of the two setters with a
    side effect. *)
Lemma rewritten_projections (cfg : Config) (r : Request) (f : Request -> Request) :
  f = (fun x => set_port (LOCAL_PORT cfg)
                  (set_host (LOCAL_ADDRESS cfg)
                     (set_path (slice_from (String.length MATCH_PREFIX - 1)
                                  (path x)) x))) ->
  method (rewritten cfg r) = method (f r) /\
  scheme (rewritten cfg r) = "http" /\
  authority (rewritten cfg r) = authority (f r) /\
  host (rewritten cfg r) = host (f r) /\
  port (rewritten cfg r) = port (f r) /\
  path (rewritten cfg r) = path (f r) /\
  http_version (rewritten cfg r) = http_version (f r) /\
  content (rewritten cfg r) = content (f r) /\
  headers (rewritten cfg r)
  = setitem "Host" (STAGING_HOST cfg) (headers (f r)).
Proof. intros ->. repeat split. Qed.

Lemma rewritten_path (cfg : Config) (r : Request) :
  path (rewritten cfg r)
  = slice_from (String.length MATCH_PREFIX - 1) (path r).
Proof.
  destruct (rewritten_projections cfg r _ eq_refl)
    as (_ & _ & _ & _ & _ & -> & _).
  destruct (set_port_fields (LOCAL_PORT cfg)
              (set_host (LOCAL_ADDRESS cfg)
                 (set_path (slice_from (String.length MATCH_PREFIX - 1)
                              (path r)) r)))
    as (_ & _ & _ & _ & -> & _).
  destruct (set_host_fields (LOCAL_ADDRESS cfg)
              (set_path (slice_from (String.length MATCH_PREFIX - 1)
                           (path r)) r))
    as (_ & _ & _ & _ & -> & _).
  reflexivity.
Qed.

Lemma rewritten_target (cfg : Config) (r : Request) :
  host (rewritten cfg r) = LOCAL_ADDRESS cfg /\
  port (rewritten cfg r) = LOCAL_PORT cfg /\
  scheme (rewritten cfg r) = "http".
Proof.
  destruct (rewritten_projections cfg r _ eq_refl)
    as (_ & Hs & _ & Hh & Hq & _).
  destruct (set_port_fields (LOCAL_PORT cfg)
              (set_host (LOCAL_ADDRESS cfg)
                 (set_path (slice_from (String.length MATCH_PREFIX - 1)
                              (path r)) r)))
    as (_ & _ & Hh1 & Hq1 & _).
  destruct (set_host_fields (LOCAL_ADDRESS cfg)
              (set_path (slice_from (String.length MATCH_PREFIX - 1)
                           (path r)) r))
    as (_ & _ & Hh2 & _).
  rewrite Hh, Hq, Hh1, Hq1, Hh2.
  split; [reflexivity|]. split; [reflexivity|]. exact Hs.
Qed.

Lemma rewritten_frame (cfg : Config) (r : Request) :
  method (rewritten cfg r) = method r /\
  http_version (rewritten cfg r) = http_version r /\
  content (rewritten cfg r) = content r.
Proof.
  destruct (rewritten_projections cfg r _ eq_refl)
    as (Hm & _ & _ & _ & _ & _ & Hv & Hc & _).
  destruct (set_port_fields (LOCAL_PORT cfg)
              (set_host (LOCAL_ADDRESS cfg)
                 (set_path (slice_from (String.length MATCH_PREFIX - 1)
                              (path r)) r)))
    as (Hm1 & _ & _ & _ & _ & Hv1 & Hc1).
  destruct (set_host_fields (LOCAL_ADDRESS cfg)
              (set_path (slice_from (String.length MATCH_PREFIX - 1)
                           (path r)) r))
    as (Hm2 & _ & _ & _ & _ & Hv2 & Hc2).
  rewrite Hm, Hv, Hc, Hm1, Hv1, Hc1, Hm2, Hv2, Hc2. repeat split.
Qed.

Lemma rewritten_authority (cfg : Config) (r : Request) :
  authority (rewritten cfg r)
  = authority_after cfg (scheme r) (authority r) (port r).
Proof.
  destruct (rewritten_projections cfg r _ eq_refl)
    as (_ & _ & -> & _).
  unfold set_port. rewrite update_authority. cbn [authority scheme host port].
  destruct (set_host_fields (LOCAL_ADDRESS cfg)
              (set_path (slice_from (String.length MATCH_PREFIX - 1)
                           (path r)) r))
    as (_ & -> & -> & _).
  unfold set_host. rewrite update_authority.
  cbn [authority scheme host port set_path].
  unfold authority_after.
  destruct (authority r) as [|c a]; cbn [truthy]; [reflexivity|].
  destruct (hostport (scheme r) (LOCAL_ADDRESS cfg) (port r)); reflexivity.
Qed.

Lemma set_host_others (v : string) (r : Request) :
  others "Host" (headers (set_host v r)) = others "Host" (headers r).
Proof. unfold set_host. now rewrite update_others. Qed.

Lemma set_port_others (v : Z) (r : Request) :
  others "Host" (headers (set_port v r)) = others "Host" (headers r).
Proof. unfold set_port. now rewrite update_others. Qed.

Lemma truthy_nonempty (a : string) : a <> "" -> truthy a = true.
Proof. destruct a; [congruence | reflexivity]. Qed.

Lemma truthy_hostport (sch h : string) (p : Z) :
  h <> "" -> truthy (hostport sch h p) = true.
Proof.
  intros Hh. unfold hostport.
  destruct h as [|c h]; [congruence|].
  destruct (default_port sch) as [d|]; [destruct (d =? p)%Z|]; reflexivity.
Qed.

Lemma rewritten_headers (cfg : Config) (r : Request) :
  exists hs,
    headers (rewritten cfg r) = setitem "Host" (STAGING_HOST cfg) hs /\
    others "Host" hs = others "Host" (headers r).
Proof.
  exists (headers (set_port (LOCAL_PORT cfg)
                     (set_host (LOCAL_ADDRESS cfg)
                        (set_path (slice_from (String.length MATCH_PREFIX - 1)
                                     (path r)) r)))).
  split; [reflexivity|].
  now rewrite set_port_others, set_host_others.
Qed.

Lemma rewritten_host_header (cfg : Config) (r : Request) :
  get "Host" (headers (rewritten cfg r)) = Some (STAGING_HOST cfg).
Proof.
  destruct (rewritten_headers cfg r) as (hs & -> & _). apply get_setitem.
Qed.


(* ------------------------------------------------------------------ *)
(** ** One call of the hook *)

(** The hook, for any runtime: the branch taken, the request object the
    logger sees, and the record it is handed. *)
Lemma request_unfold (rt : Runtime) (cfg : Config) (w : World) :
  let r := flow_request w in
  request rt cfg w =
  if rule_matches rt cfg r
  then log_info rt
         (Rewritten (method (rewritten cfg r)) (url (rewritten cfg r))
            ("http://" ++ LOCAL_ADDRESS cfg ++ ":" ++ str_int (LOCAL_PORT cfg)
               ++ path (rewritten cfg r)))
         (mkWorld (rewritten cfg r) (ctx_log w))
  else log_info rt (Ignored (method r) (pretty_host (parse_authority rt) r)
                      (path r)) w.
Proof.
  destruct w as [r l]. simpl.
  unfold request, bind, attr, assign. simpl.
  destruct (rule_matches rt cfg r); reflexivity.
Qed.

(** Under mitmproxy the hook returns, and this is the world it leaves. *)
Lemma request_mitmproxy (pa : string -> string) (cfg : Config) (w : World) :
  let r := flow_request w in
  request (mitmproxy pa) cfg w =
  if rule_matches (mitmproxy pa) cfg r
  then (Returned tt,
        mkWorld (rewritten cfg r)
          (ctx_log w ++
             [Rewritten (method (rewritten cfg r)) (url (rewritten cfg r))
                ("http://" ++ LOCAL_ADDRESS cfg ++ ":"
                   ++ str_int (LOCAL_PORT cfg) ++ path (rewritten cfg r))]))
  else (Returned tt,
        mkWorld r (ctx_log w ++ [Ignored (method r) (pretty_host pa r) (path r)])).
Proof.
  intros r. rewrite request_unfold. fold r.
  destruct (rule_matches (mitmproxy pa) cfg r); reflexivity.
Qed.

Lemma rule_matches_iff (rt : Runtime) (cfg : Config) (r : Request) :
  rule_matches rt cfg r = true <->
  pretty_host (parse_authority rt) r = STAGING_HOST cfg /\
  startswith (path r) MATCH_PREFIX = true.
Proof.
  unfold rule_matches. rewrite andb_true_iff, String.eqb_eq. reflexivity.
Qed.

Lemma request_after_matched (pa : string -> string) (cfg : Config) (w : World) :
  rule_matches (mitmproxy pa) cfg (flow_request w) = true ->
  request_after pa cfg w = rewritten cfg (flow_request w).
Proof.
  intros H. unfold request_after, exec.
  rewrite request_mitmproxy, H. reflexivity.
Qed.

Lemma outcome_mitmproxy (pa : string -> string) (cfg : Config) (w : World) :
  outcome (request (mitmproxy pa) cfg) w = Returned tt.
Proof.
  unfold outcome. rewrite request_mitmproxy.
  destruct (rule_matches _ _ _); reflexivity.
Qed.

Lemma log_after_mitmproxy (pa : string -> string) (cfg : Config) (w : World) :
  log_after pa cfg w =
  (ctx_log w ++
     [if rule_matches (mitmproxy pa) cfg (flow_request w)
      then Rewritten (method (rewritten cfg (flow_request w)))
             (url (rewritten cfg (flow_request w)))
             ("http://" ++ LOCAL_ADDRESS cfg ++ ":" ++ str_int (LOCAL_PORT cfg)
                ++ path (rewritten cfg (flow_request w)))
      else Ignored (method (flow_request w)) (pretty_host pa (flow_request w))
             (path (flow_request w))])%list.
Proof.
  unfold log_after, exec. rewrite request_mitmproxy.
  destruct (rule_matches _ _ _); reflexivity.
Qed.

Lemma request_after_unmatched (pa : string -> string) (cfg : Config) (w : World) :
  rule_matches (mitmproxy pa) cfg (flow_request w) = false ->
  request_after pa cfg w = flow_request w.
Proof.
  intros H. unfold request_after, exec.
  rewrite request_mitmproxy, H. reflexivity.
Qed.

(* ------------------------------------------------------------------ *)
(** ** The end-to-end scenario *)

(** C1 — with the default rule (staging.api.example.com,
    /stg/v1/ubah-izin/ -> http 127.0.0.1:5000), the hook turns
    GET http://staging.api.example.com/stg/v1/ubah-izin/apply into
    GET http://127.0.0.1:5000/apply: path /apply, host 127.0.0.1,
    port 5000, scheme http, and the Host header is
    staging.api.example.com.  Stated for every GET request with that
    pretty_host and that path, whatever its other attributes. *)
Theorem staging_apply_rewritten (pa : string -> string) (w : World) :
  method (flow_request w) = "GET" ->
  pretty_host pa (flow_request w) = "staging.api.example.com" ->
  path (flow_request w) = "/stg/v1/ubah-izin/apply" ->
  outcome (request (mitmproxy pa) default_config) w = Returned tt /\
  method (request_after pa default_config w) = "GET" /\
  url (request_after pa default_config w) = "http://127.0.0.1:5000/apply" /\
  path (request_after pa default_config w) = "/apply" /\
  host (request_after pa default_config w) = "127.0.0.1" /\
  port (request_after pa default_config w) = 5000%Z /\
  scheme (request_after pa default_config w) = "http" /\
  get "Host" (headers (request_after pa default_config w))
  = Some "staging.api.example.com".
Proof.
  intros Hm Hh Hp.
  assert (Hrule : rule_matches (mitmproxy pa) default_config (flow_request w)
                  = true).
  { apply rule_matches_iff. simpl. rewrite Hh, Hp. split; reflexivity. }
  rewrite (request_after_matched _ _ _ Hrule).
  destruct (rewritten_target default_config (flow_request w)) as (Ht & Hq & Hs).
  destruct (rewritten_frame default_config (flow_request w)) as (Hm' & _ & _).
  pose proof (rewritten_path default_config (flow_request w)) as Hp'.
  rewrite Hp in Hp'.
  change (path (rewritten default_config (flow_request w)) = "/apply") in Hp'.
  change (LOCAL_ADDRESS default_config) with "127.0.0.1" in Ht.
  change (LOCAL_PORT default_config) with 5000%Z in Hq.
  repeat split; try assumption.
  - apply outcome_mitmproxy.
  - congruence.
  - unfold url. rewrite Hm', Hm, Hp', Ht, Hq, Hs. reflexivity.
  - apply rewritten_host_header.
Qed.

Lemma staging_apply_rewritten_witness :
  method staging_request = "GET" /\
  pretty_host authority_host staging_request = "staging.api.example.com" /\
  path staging_request = "/stg/v1/ubah-izin/apply" /\
  url (request_after authority_host default_config (mkWorld staging_request []))
  = "http://127.0.0.1:5000/apply".
Proof.
  split; [reflexivity|]. split; [reflexivity|]. split; [reflexivity|].
  apply (staging_apply_rewritten authority_host (mkWorld staging_request []));
    reflexivity.
Defined.

(* ------------------------------------------------------------------ *)
(** ** Matching *)

(** C2 (as stated, refuted) — the request of the scenario with its host
    in capitals: the host equals the match host up to letter case and
    the path starts with the prefix, yet the hook ignores it and leaves
    it as it was. *)
Lemma capitals_host_not_matched :
  lower (pretty_host authority_host capitals_request)
  = lower (STAGING_HOST default_config) /\
  startswith (path capitals_request) MATCH_PREFIX = true /\
  request (mitmproxy authority_host) default_config
    (mkWorld capitals_request [])
  = (Returned tt,
     mkWorld capitals_request
       [Ignored "GET" "STAGING.API.EXAMPLE.COM" "/stg/v1/ubah-izin/apply"]).
Proof. repeat split. Qed.

(** C2 (amended) — matching is case-sensitive on the host as well as on
    the path: the hook rewrites a request exactly when its pretty_host
    is, character for character, the match host and its path begins
    with the match prefix. *)
Theorem matching_is_exact (pa : string -> string) (cfg : Config) (w : World) :
  (exists m u t, log_after pa cfg w = (ctx_log w ++ [Rewritten m u t])%list)
  <->
  (pretty_host pa (flow_request w) = STAGING_HOST cfg /\
   exists rest, path (flow_request w) = MATCH_PREFIX ++ rest).
Proof.
  rewrite log_after_mitmproxy, <- startswith_split.
  change pa with (parse_authority (mitmproxy pa)) at 3.
  rewrite <- rule_matches_iff.
  destruct (rule_matches (mitmproxy pa) cfg (flow_request w)); split.
  - reflexivity.
  - intros _. eauto.
  - intros (m & u & t & H). apply app_inj_tail in H as [_ H]. discriminate.
  - discriminate.
Qed.

(* ------------------------------------------------------------------ *)
(** ** The rewrite *)

(** C3 — for a request the rule matches, the new path is the old one
    without its first [len(MATCH_PREFIX) - 1] characters: the prefix is
    gone and its final slash stays in front of what followed it.  In
    particular /stg/v1/ubah-izin/apply becomes /apply. *)
Theorem trimmed_path_keeps_slash
  (pa : string -> string) (cfg : Config) (w : World) :
  pretty_host pa (flow_request w) = STAGING_HOST cfg ->
  startswith (path (flow_request w)) MATCH_PREFIX = true ->
  path (request_after pa cfg w)
  = slice_from (String.length MATCH_PREFIX - 1) (path (flow_request w)) /\
  (exists rest,
      path (flow_request w) = MATCH_PREFIX ++ rest /\
      path (request_after pa cfg w) = "/" ++ rest) /\
  (path (flow_request w) = "/stg/v1/ubah-izin/apply" ->
   path (request_after pa cfg w) = "/apply").
Proof.
  intros Hh Hp.
  assert (Hrule : rule_matches (mitmproxy pa) cfg (flow_request w) = true)
    by (apply rule_matches_iff; split; assumption).
  rewrite (request_after_matched _ _ _ Hrule), rewritten_path.
  split; [reflexivity|]. split.
  - apply startswith_split in Hp as [rest Hrest].
    exists rest. split; [assumption|].
    rewrite Hrest. apply slice_match_prefix.
  - intros ->. reflexivity.
Qed.

Lemma trimmed_path_keeps_slash_witness :
  pretty_host authority_host secure_request = STAGING_HOST default_config /\
  startswith (path secure_request) MATCH_PREFIX = true /\
  path (request_after authority_host default_config
          (mkWorld secure_request []))
  = slice_from (String.length MATCH_PREFIX - 1) (path secure_request).
Proof.
  split; [reflexivity|]. split; [reflexivity|].
  apply (trimmed_path_keeps_slash authority_host default_config
           (mkWorld secure_request [])); reflexivity.
Defined.

(** C4 — after a match the Host header holds the host the request was
    matched on, its pretty_host before the rewrite, which is the staging
    host of the configuration; the target address written to [req.host]
    does not end up there. *)
Theorem host_header_preserved
  (pa : string -> string) (cfg : Config) (w : World) :
  rule_matches (mitmproxy pa) cfg (flow_request w) = true ->
  get "Host" (headers (request_after pa cfg w))
  = Some (pretty_host pa (flow_request w)) /\
  get "Host" (headers (request_after pa cfg w)) = Some (STAGING_HOST cfg) /\
  host (request_after pa cfg w) = LOCAL_ADDRESS cfg.
Proof.
  intros Hrule.
  rewrite (request_after_matched _ _ _ Hrule), rewritten_host_header.
  apply rule_matches_iff in Hrule as [Hh _]. simpl in Hh.
  destruct (rewritten_target cfg (flow_request w)) as (Ht & _).
  rewrite Hh. repeat split. exact Ht.
Qed.

Lemma host_header_preserved_witness :
  rule_matches (mitmproxy authority_host) default_config transparent_request
  = true /\
  get "Host"
    (headers (request_after authority_host default_config
                (mkWorld transparent_request [])))
  = Some (pretty_host authority_host transparent_request).
Proof.
  split; [reflexivity|].
  apply (host_header_preserved authority_host default_config
           (mkWorld transparent_request [])); reflexivity.
Defined.

(** C5 — a request the rule does not match (another host, or a path
    that does not begin with the prefix) is left exactly as it was, and
    the call adds one record to the log, an "ignored" one. *)
Theorem unmatched_request_untouched
  (pa : string -> string) (cfg : Config) (w : World) :
  pretty_host pa (flow_request w) <> STAGING_HOST cfg \/
  startswith (path (flow_request w)) MATCH_PREFIX = false ->
  outcome (request (mitmproxy pa) cfg) w = Returned tt /\
  request_after pa cfg w = flow_request w /\
  log_after pa cfg w
  = (ctx_log w ++
       [Ignored (method (flow_request w)) (pretty_host pa (flow_request w))
          (path (flow_request w))])%list.
Proof.
  intros H.
  assert (Hrule : rule_matches (mitmproxy pa) cfg (flow_request w) = false).
  { destruct (rule_matches _ _ _) eqn:E; [|reflexivity].
    apply rule_matches_iff in E as [Hh Hp]. simpl in Hh.
    destruct H; congruence. }
  split; [apply outcome_mitmproxy|]. split.
  - now apply request_after_unmatched.
  - rewrite log_after_mitmproxy, Hrule. reflexivity.
Qed.

Lemma unmatched_request_untouched_witness :
  (pretty_host authority_host other_request <> STAGING_HOST default_config \/
   startswith (path other_request) MATCH_PREFIX = false) /\
  request_after authority_host default_config (mkWorld other_request [])
  = other_request.
Proof.
  split; [right; reflexivity|].
  apply (unmatched_request_untouched authority_host default_config
           (mkWorld other_request [])).
  right; reflexivity.
Defined.

(** C9 — on a match the scheme becomes http whatever it was before: an
    https request for the staging host leaves for the local target over
    http. *)
Theorem scheme_forced_to_http
  (pa : string -> string) (cfg : Config) (w : World) :
  rule_matches (mitmproxy pa) cfg (flow_request w) = true ->
  scheme (request_after pa cfg w) = "http".
Proof.
  intros Hrule. rewrite (request_after_matched _ _ _ Hrule).
  apply rewritten_target.
Qed.

Lemma scheme_forced_to_http_witness :
  scheme secure_request = "https" /\
  rule_matches (mitmproxy authority_host) default_config secure_request = true /\
  scheme (request_after authority_host default_config
            (mkWorld secure_request []))
  = "http".
Proof.
  split; [reflexivity|]. split; [reflexivity|].
  apply (scheme_forced_to_http authority_host default_config
           (mkWorld secure_request [])); reflexivity.
Defined.




(* ------------------------------------------------------------------ *)
(** ** Logging *)

(** C7 — every call of the hook adds exactly one record to the log: a
    "rewritten" record when the rule matches, an "ignored" record when
    it does not. *)
Theorem one_record_per_request
  (pa : string -> string) (cfg : Config) (w : World) :
  outcome (request (mitmproxy pa) cfg) w = Returned tt /\
  length (log_after pa cfg w) = S (length (ctx_log w)) /\
  exists r,
    log_after pa cfg w = (ctx_log w ++ [r])%list /\
    match r with
    | Rewritten _ _ _ =>
        rule_matches (mitmproxy pa) cfg (flow_request w) = true
    | Ignored _ _ _ =>
        rule_matches (mitmproxy pa) cfg (flow_request w) = false
    end.
Proof.
  split; [apply outcome_mitmproxy|].
  rewrite log_after_mitmproxy. split.
  - rewrite length_app. simpl. lia.
  - eexists. split; [reflexivity|].
    destruct (rule_matches _ _ _); reflexivity.
Qed.

(* ------------------------------------------------------------------ *)
(** ** Determinism *)

(** C8 — for a fixed configuration the decision and the rewritten
    fields depend on the pair (pretty_host, path) only: two calls on
    requests that agree on it, whatever else differs between the two
    requests and whatever the log holds, decide alike, and on a match
    write the same path, host, port, scheme and Host header. *)
Theorem rewrite_is_deterministic
  (pa : string -> string) (cfg : Config) (w1 w2 : World) :
  pretty_host pa (flow_request w1) = pretty_host pa (flow_request w2) ->
  path (flow_request w1) = path (flow_request w2) ->
  last_rewrote (log_after pa cfg w1) = last_rewrote (log_after pa cfg w2) /\
  last_rewrote (log_after pa cfg w1)
  = rule_matches (mitmproxy pa) cfg (flow_request w1) /\
  (last_rewrote (log_after pa cfg w1) = true ->
   path (request_after pa cfg w1) = path (request_after pa cfg w2) /\
   host (request_after pa cfg w1) = host (request_after pa cfg w2) /\
   port (request_after pa cfg w1) = port (request_after pa cfg w2) /\
   scheme (request_after pa cfg w1) = scheme (request_after pa cfg w2) /\
   get "Host" (headers (request_after pa cfg w1))
   = get "Host" (headers (request_after pa cfg w2))).
Proof.
  intros Hh Hp.
  assert (Hlast : forall w, last_rewrote (log_after pa cfg w)
                            = rule_matches (mitmproxy pa) cfg (flow_request w)).
  { intros w. rewrite log_after_mitmproxy. unfold last_rewrote.
    rewrite rev_app_distr. simpl.
    destruct (rule_matches _ _ _); reflexivity. }
  assert (Hsame : rule_matches (mitmproxy pa) cfg (flow_request w1)
                  = rule_matches (mitmproxy pa) cfg (flow_request w2)).
  { unfold rule_matches. simpl. now rewrite Hh, Hp. }
  rewrite !Hlast. split; [assumption|]. split; [reflexivity|].
  intros H1. assert (H2 := H1). rewrite Hsame in H2.
  rewrite (request_after_matched _ _ _ H1), (request_after_matched _ _ _ H2).
  rewrite !rewritten_path, !rewritten_host_header, Hp.
  destruct (rewritten_target cfg (flow_request w1)) as (-> & -> & ->).
  destruct (rewritten_target cfg (flow_request w2)) as (-> & -> & ->).
  repeat split.
Qed.

Lemma rewrite_is_deterministic_witness :
  pretty_host authority_host staging_request
  = pretty_host authority_host transparent_request /\
  path staging_request = path transparent_request /\
  last_rewrote (log_after authority_host default_config
                  (mkWorld staging_request []))
  = last_rewrote (log_after authority_host default_config
                    (mkWorld transparent_request
                       [Ignored "GET" "example.org" "/index.html"])).
Proof.
  split; [reflexivity|]. split; [reflexivity|].
  apply (rewrite_is_deterministic authority_host default_config
           (mkWorld staging_request [])
           (mkWorld transparent_request
              [Ignored "GET" "example.org" "/index.html"])); reflexivity.
Defined.

(* ------------------------------------------------------------------ *)
(** ** Exceptions *)

(** C6 (as stated, refuted) — the scenario request under a logger that
    raises: the exception comes out of the hook, and the request object
    is left rewritten, addressed to the local target. *)
Lemma logger_exception_escapes :
  request (broken_logger authority_host (Exception "log")) default_config
    (mkWorld staging_request [])
  = (Raised (Exception "log"),
     mkWorld
       (mkRequest "GET" "http" "" "127.0.0.1" 5000 "/apply" "HTTP/1.1"
          [("Host", "staging.api.example.com"); ("Accept", "*/*")] "")
       []).
Proof. reflexivity. Qed.

(** C6 (amended) — the hook has no handler of its own.  An exception
    raised inside it by the logging call is not caught: it leaves the
    hook, and by then a matched request has been rewritten (an unmatched
    one is as it was).  With mitmproxy's logger, which does not raise,
    the hook returns on every request. *)
Theorem exception_not_caught
  (rt : Runtime) (cfg : Config) (w : World) (e : Exn) :
  (forall r w0, log_info rt r w0 = (Raised e, w0)) ->
  outcome (request rt cfg) w = Raised e /\
  flow_request (exec (request rt cfg) w)
  = (if rule_matches rt cfg (flow_request w)
     then rewritten cfg (flow_request w)
     else flow_request w) /\
  outcome (request (mitmproxy (parse_authority rt)) cfg) w = Returned tt.
Proof.
  intros Hlog. unfold outcome, exec.
  rewrite request_unfold.
  split; [|split].
  - destruct (rule_matches _ _ _); now rewrite Hlog.
  - destruct (rule_matches _ _ _); now rewrite Hlog.
  - apply outcome_mitmproxy.
Qed.

Lemma exception_not_caught_witness :
  (forall r w0,
      log_info (broken_logger authority_host (Exception "log")) r w0
      = (Raised (Exception "log"), w0)) /\
  outcome (request (broken_logger authority_host (Exception "log"))
             default_config)
    (mkWorld staging_request [])
  = Raised (Exception "log").
Proof.
  split; [reflexivity|].
  apply (exception_not_caught
           (broken_logger authority_host (Exception "log")) default_config
           (mkWorld staging_request []) (Exception "log")).
  reflexivity.
Defined.

(* ------------------------------------------------------------------ *)
(** * Further properties of the hook *)

(** ** Helper facts *)

Lemma startswith_length (s p : string) :
  startswith s p = true -> String.length p <= String.length s.
Proof.
  unfold startswith. revert s.
  induction p as [|c p IH]; intros s; simpl; [lia|].
  destruct s as [|d s]; simpl; [discriminate|].
  destruct (ascii_dec c d); [|discriminate].
  intros H. apply IH in H. lia.
Qed.

Lemma setitem_setitem (k v1 v2 : string) (hs : Headers) :
  setitem k v2 (setitem k v1 hs) = setitem k v2 hs.
Proof.
  induction hs as [|f hs IH]; simpl.
  - unfold same_name. simpl. now rewrite String.eqb_refl.
  - destruct (same_name k f) eqn:E; simpl.
    + rewrite same_name_fst, E. simpl. now rewrite others_idem.
    + now rewrite E, IH.
Qed.

Lemma setitem_absent (k v : string) (hs : Headers) :
  contains k hs = false -> setitem k v hs = (hs ++ [(k, v)])%list.
Proof.
  unfold contains. induction hs as [|f hs IH]; simpl; [reflexivity|].
  intros H. apply orb_false_iff in H as [Hf Hrest].
  rewrite Hf. now rewrite IH.
Qed.

Lemma setitem_first (k v : string) (pre post : Headers) (f : string * string) :
  contains k pre = false -> same_name k f = true ->
  setitem k v (pre ++ f :: post)%list
  = (pre ++ (fst f, v) :: others k post)%list.
Proof.
  unfold contains. intros Hpre Hf.
  induction pre as [|g pre IH]; simpl in *.
  - now rewrite Hf.
  - apply orb_false_iff in Hpre as [Hg Hpre].
    rewrite Hg. now rewrite IH.
Qed.

Lemma setitem_update_host_header (v : string) (r : Request) :
  setitem "Host" v (headers (update_host_and_authority r))
  = setitem "Host" v (headers r).
Proof.
  rewrite update_headers.
  destruct (contains "Host" (headers r)); [|reflexivity].
  apply setitem_setitem.
Qed.

Lemma rewritten_headers_exact (cfg : Config) (r : Request) :
  headers (rewritten cfg r) = setitem "Host" (STAGING_HOST cfg) (headers r).
Proof.
  unfold rewritten, set_header, with_headers, set_scheme, set_port, set_host,
    set_path.
  cbn [headers].
  rewrite setitem_update_host_header. cbn [headers].
  rewrite setitem_update_host_header. reflexivity.
Qed.

Lemma pretty_host_rewritten (pa : string -> string) (cfg : Config) (r : Request) :
  pretty_host pa (rewritten cfg r)
  = if (is_http2 r || is_http3 r)
       && truthy (authority_after cfg (scheme r) (authority r) (port r))
    then pa (authority_after cfg (scheme r) (authority r) (port r))
    else if truthy (STAGING_HOST cfg) then pa (STAGING_HOST cfg)
         else LOCAL_ADDRESS cfg.
Proof.
  destruct (rewritten_frame cfg r) as (_ & Hv & _).
  destruct (rewritten_target cfg r) as (Hh & _).
  unfold pretty_host, host_header, is_http2, is_http3.
  rewrite Hv, rewritten_authority, rewritten_host_header, Hh.
  destruct ((http_version r =? "HTTP/2.0") || (http_version r =? "HTTP/3"));
    cbn [andb];
    [destruct (truthy (authority_after cfg (scheme r) (authority r) (port r)))
       eqn:Ea; [now rewrite Ea|] |];
    destruct (truthy (STAGING_HOST cfg)); reflexivity.
Qed.

(** Requests on which [host_header] is the [Host] header: HTTP/1, or no
    authority. *)
Lemma pretty_host_rewritten_header
  (pa : string -> string) (cfg : Config) (r : Request) :
  is_http2 r || is_http3 r = false \/ authority r = "" ->
  pretty_host pa (rewritten cfg r)
  = if truthy (STAGING_HOST cfg) then pa (STAGING_HOST cfg)
    else LOCAL_ADDRESS cfg.
Proof.
  intros H. rewrite pretty_host_rewritten.
  destruct H as [-> | ->]; [reflexivity|].
  unfold authority_after. cbn [truthy]. now rewrite andb_false_r.
Qed.

Lemma append_assoc (a b c : string) : (a ++ b) ++ c = a ++ b ++ c.
Proof. induction a as [|x a IH]; simpl; [reflexivity | now rewrite IH]. Qed.

Lemma hostport_http (h : string) (p : Z) :
  hostport "http" h p = if (80 =? p)%Z then h else h ++ ":" ++ str_int p.
Proof. reflexivity. Qed.

Lemma url_rewritten (cfg : Config) (r : Request) (rest : string) :
  path r = MATCH_PREFIX ++ rest ->
  method r <> "CONNECT" ->
  url (rewritten cfg r)
  = "http://" ++ hostport "http" (LOCAL_ADDRESS cfg) (LOCAL_PORT cfg)
      ++ "/" ++ rest.
Proof.
  intros Hp Hm.
  destruct (rewritten_target cfg r) as (Hh & Hq & Hs).
  destruct (rewritten_frame cfg r) as (Hm' & _ & _).
  pose proof (rewritten_path cfg r) as Hp'.
  rewrite Hp, slice_match_prefix in Hp'.
  unfold url. rewrite Hm', Hp', Hh, Hq, Hs.
  apply String.eqb_neq in Hm. rewrite Hm. reflexivity.
Qed.

(** ** What the "rewritten" record shows *)

(** X1 — the record logged on a match is built after the assignments:
    its method is the request's, its second URL is
    http://LOCAL_ADDRESS:LOCAL_PORT followed by the trimmed path, and its
    first URL is [req.url] of the request as already rewritten, never
    the URL the client asked for.  For a request other than CONNECT the
    two URLs are the same text when LOCAL_PORT is not 80, and differ
    only by the omitted [:80] when it is. *)
Theorem rewritten_record_urls
  (pa : string -> string) (cfg : Config) (w : World) (rest : string) :
  pretty_host pa (flow_request w) = STAGING_HOST cfg ->
  path (flow_request w) = MATCH_PREFIX ++ rest ->
  log_after pa cfg w
  = (ctx_log w ++
       [Rewritten (method (flow_request w)) (url (request_after pa cfg w))
          ("http://" ++ LOCAL_ADDRESS cfg ++ ":" ++ str_int (LOCAL_PORT cfg)
             ++ "/" ++ rest)])%list /\
  (method (flow_request w) <> "CONNECT" -> LOCAL_PORT cfg <> 80%Z ->
   url (request_after pa cfg w)
   = "http://" ++ LOCAL_ADDRESS cfg ++ ":" ++ str_int (LOCAL_PORT cfg)
       ++ "/" ++ rest) /\
  (method (flow_request w) <> "CONNECT" -> LOCAL_PORT cfg = 80%Z ->
   url (request_after pa cfg w)
   = "http://" ++ LOCAL_ADDRESS cfg ++ "/" ++ rest).
Proof.
  intros Hh Hp.
  assert (Hrule : rule_matches (mitmproxy pa) cfg (flow_request w) = true).
  { apply rule_matches_iff. split; [exact Hh|].
    apply startswith_split. now exists rest. }
  rewrite log_after_mitmproxy, Hrule, (request_after_matched _ _ _ Hrule).
  destruct (rewritten_frame cfg (flow_request w)) as (Hm & _ & _).
  rewrite Hm, rewritten_path, Hp, slice_match_prefix.
  split; [reflexivity|]. split; intros Hc Hport.
  - rewrite (url_rewritten cfg _ rest Hp Hc), hostport_http.
    apply Z.eqb_neq in Hport. rewrite Z.eqb_sym in Hport. rewrite Hport.
    now rewrite !append_assoc.
  - rewrite (url_rewritten cfg _ rest Hp Hc), hostport_http, Hport.
    reflexivity.
Qed.

Lemma rewritten_record_urls_witness :
  pretty_host authority_host secure_request = STAGING_HOST default_config /\
  path secure_request = MATCH_PREFIX ++ "apply?dry=1" /\
  log_after authority_host default_config (mkWorld secure_request [])
  = [Rewritten "POST" "http://127.0.0.1:5000/apply?dry=1"
       "http://127.0.0.1:5000/apply?dry=1"].
Proof.
  split; [reflexivity|]. split; [reflexivity|].
  apply (rewritten_record_urls authority_host default_config
           (mkWorld secure_request []) "apply?dry=1"); reflexivity.
Defined.

(** ** The header list after a match *)

(** X2 — on a match the header list is the original one with
    [headers["Host"] = STAGING_HOST] applied once: the updates the host
    and port setters make to an existing Host field on the way leave no
    trace.  So exactly one field is named Host afterwards; a request
    without a Host field gets one appended at the end; otherwise the
    first Host field keeps its position and the spelling of its name,
    and later fields of that name are removed. *)
Theorem host_field_replaced_in_place
  (pa : string -> string) (cfg : Config) (w : World) :
  rule_matches (mitmproxy pa) cfg (flow_request w) = true ->
  headers (request_after pa cfg w)
  = setitem "Host" (STAGING_HOST cfg) (headers (flow_request w)) /\
  get_all "Host" (headers (request_after pa cfg w)) = [STAGING_HOST cfg] /\
  (contains "Host" (headers (flow_request w)) = false ->
   headers (request_after pa cfg w)
   = (headers (flow_request w) ++ [("Host", STAGING_HOST cfg)])%list) /\
  (forall pre f post,
      headers (flow_request w) = (pre ++ f :: post)%list ->
      contains "Host" pre = false -> same_name "Host" f = true ->
      headers (request_after pa cfg w)
      = (pre ++ (fst f, STAGING_HOST cfg) :: others "Host" post)%list).
Proof.
  intros Hrule.
  rewrite (request_after_matched _ _ _ Hrule), rewritten_headers_exact.
  split; [reflexivity|]. split; [apply get_all_setitem|]. split.
  - apply setitem_absent.
  - intros pre f post -> Hpre Hf. now apply setitem_first.
Qed.

Lemma host_field_replaced_in_place_witness :
  rule_matches (mitmproxy authority_host) default_config secure_request = true /\
  headers (request_after authority_host default_config
             (mkWorld secure_request []))
  = [("user-agent", "curl/8"); ("host", "staging.api.example.com");
     ("Content-Type", "application/json")].
Proof.
  split; [reflexivity|].
  apply (host_field_replaced_in_place authority_host default_config
           (mkWorld secure_request [])); reflexivity.
Defined.

(** ** The host a rewritten request reports *)

(** X3 — what [req.pretty_host] reports after a match depends on where
    it is read from.  On HTTP/1, and on HTTP/2-3 without an authority,
    it is read from the Host header the hook wrote: it is still the
    parsed staging host, not the local address now in [req.host] (it
    falls back to the local address only when STAGING_HOST is empty).
    On HTTP/2-3 with an authority it is read from the authority the
    host and port assignments rewrote: it is the parsed host and port
    of the local target. *)
Theorem pretty_host_after_rewrite
  (pa : string -> string) (cfg : Config) (w : World) :
  rule_matches (mitmproxy pa) cfg (flow_request w) = true ->
  (is_http2 (flow_request w) || is_http3 (flow_request w) = false \/
   authority (flow_request w) = "" ->
   pretty_host pa (request_after pa cfg w)
   = (if truthy (STAGING_HOST cfg) then pa (STAGING_HOST cfg)
      else LOCAL_ADDRESS cfg)) /\
  (is_http2 (flow_request w) || is_http3 (flow_request w) = true ->
   authority (flow_request w) <> "" -> LOCAL_ADDRESS cfg <> "" ->
   pretty_host pa (request_after pa cfg w)
   = pa (hostport (scheme (flow_request w)) (LOCAL_ADDRESS cfg)
           (LOCAL_PORT cfg))).
Proof.
  intros Hrule. rewrite (request_after_matched _ _ _ Hrule). split.
  - apply pretty_host_rewritten_header.
  - intros Hv Ha Hl. rewrite pretty_host_rewritten, Hv.
    unfold authority_after.
    rewrite (truthy_nonempty _ Ha), (truthy_hostport _ _ _ Hl).
    now rewrite (truthy_hostport _ _ _ Hl).
Qed.

Lemma pretty_host_after_rewrite_witness :
  rule_matches (mitmproxy authority_host) default_config transparent_request
  = true /\
  pretty_host authority_host
    (request_after authority_host default_config
       (mkWorld transparent_request []))
  = "staging.api.example.com" /\
  rule_matches (mitmproxy authority_host) default_config h2_request = true /\
  pretty_host authority_host
    (request_after authority_host default_config (mkWorld h2_request []))
  = "127.0.0.1".
Proof.
  split; [reflexivity|]. split.
  - apply (proj1 (pretty_host_after_rewrite authority_host default_config
                    (mkWorld transparent_request []) eq_refl)).
    left; reflexivity.
  - split; [reflexivity|].
    change "127.0.0.1"
      with (authority_host
              (hostport (scheme h2_request) (LOCAL_ADDRESS default_config)
                 (LOCAL_PORT default_config))).
    apply (proj2 (pretty_host_after_rewrite authority_host default_config
                    (mkWorld h2_request []) eq_refl));
      [reflexivity | discriminate | discriminate].
Defined.

(** ** Calling the hook again on a rewritten request *)

Lemma rule_matches_again (pa : string -> string) (cfg : Config) (w : World) :
  rule_matches (mitmproxy pa) cfg (flow_request w) = true ->
  rule_matches (mitmproxy pa) cfg (request_after pa cfg w)
  = (pretty_host pa (request_after pa cfg w) =? STAGING_HOST cfg)
    && startswith
         (slice_from (String.length MATCH_PREFIX - 1) (path (flow_request w)))
         MATCH_PREFIX.
Proof.
  intros Hrule. unfold rule_matches. simpl parse_authority.
  now rewrite (request_after_matched _ _ _ Hrule), rewritten_path.
Qed.

(** X4 — a second call of the hook on a request it has rewritten (a
    replayed flow, say) changes nothing when the trimmed path does not
    itself begin with the prefix: it no longer matches, the request
    stays as the first call left it, and the second call only logs an
    "ignored" record. *)
Theorem second_call_ignored
  (pa : string -> string) (cfg : Config) (w : World) :
  rule_matches (mitmproxy pa) cfg (flow_request w) = true ->
  startswith
    (slice_from (String.length MATCH_PREFIX - 1) (path (flow_request w)))
    MATCH_PREFIX = false ->
  request_after pa cfg (exec (request (mitmproxy pa) cfg) w)
  = request_after pa cfg w /\
  exists m u t m' h p,
    log_after pa cfg (exec (request (mitmproxy pa) cfg) w)
    = (ctx_log w ++ [Rewritten m u t; Ignored m' h p])%list.
Proof.
  intros Hrule Hp.
  pose proof (rule_matches_again pa cfg w Hrule) as H2.
  rewrite Hp, andb_false_r in H2.
  change (request_after pa cfg w)
    with (flow_request (exec (request (mitmproxy pa) cfg) w)) in H2 |- *.
  split; [now apply request_after_unmatched|].
  rewrite log_after_mitmproxy, H2.
  change (ctx_log (exec (request (mitmproxy pa) cfg) w))
    with (log_after pa cfg w).
  rewrite log_after_mitmproxy, Hrule, <- app_assoc. simpl.
  repeat eexists.
Qed.

Lemma second_call_ignored_witness :
  rule_matches (mitmproxy authority_host) default_config staging_request
  = true /\
  startswith
    (slice_from (String.length MATCH_PREFIX - 1) (path staging_request))
    MATCH_PREFIX = false /\
  request_after authority_host default_config
    (exec (request (mitmproxy authority_host) default_config)
       (mkWorld staging_request []))
  = request_after authority_host default_config (mkWorld staging_request []).
Proof.
  split; [reflexivity|]. split; [reflexivity|].
  apply (second_call_ignored authority_host default_config
           (mkWorld staging_request [])); reflexivity.
Defined.

(** X5 — the hook is not idempotent on a request whose host is read
    from the Host header (HTTP/1, or HTTP/2-3 without an authority):
    when the authority parser returns the (non-empty) staging host
    unchanged and the path repeats the prefix, a second call matches
    again and removes the prefix a second time. *)
Theorem second_call_trims_again
  (pa : string -> string) (cfg : Config) (w : World) :
  rule_matches (mitmproxy pa) cfg (flow_request w) = true ->
  is_http2 (flow_request w) || is_http3 (flow_request w) = false \/
  authority (flow_request w) = "" ->
  STAGING_HOST cfg <> "" ->
  pa (STAGING_HOST cfg) = STAGING_HOST cfg ->
  startswith
    (slice_from (String.length MATCH_PREFIX - 1) (path (flow_request w)))
    MATCH_PREFIX = true ->
  path (request_after pa cfg (exec (request (mitmproxy pa) cfg) w))
  = slice_from (String.length MATCH_PREFIX - 1)
      (slice_from (String.length MATCH_PREFIX - 1) (path (flow_request w))) /\
  exists m u t m' u' t',
    log_after pa cfg (exec (request (mitmproxy pa) cfg) w)
    = (ctx_log w ++ [Rewritten m u t; Rewritten m' u' t'])%list.
Proof.
  intros Hrule Hv Hne Hpa Hp.
  pose proof (rule_matches_again pa cfg w Hrule) as H2.
  rewrite (request_after_matched _ _ _ Hrule) in H2 at 2.
  rewrite (pretty_host_rewritten_header pa cfg _ Hv) in H2.
  rewrite (truthy_nonempty _ Hne), Hpa, String.eqb_refl, Hp in H2.
  simpl in H2.
  change (request_after pa cfg w)
    with (flow_request (exec (request (mitmproxy pa) cfg) w)) in H2.
  split.
  - rewrite (request_after_matched _ _ _ H2), rewritten_path.
    change (flow_request (exec (request (mitmproxy pa) cfg) w))
      with (request_after pa cfg w).
    now rewrite (request_after_matched _ _ _ Hrule), rewritten_path.
  - rewrite log_after_mitmproxy, H2.
    change (ctx_log (exec (request (mitmproxy pa) cfg) w))
      with (log_after pa cfg w).
    rewrite log_after_mitmproxy, Hrule, <- app_assoc. simpl.
    repeat eexists.
Qed.

Lemma second_call_trims_again_witness :
  rule_matches (mitmproxy authority_host) default_config nested_request
  = true /\
  (is_http2 nested_request || is_http3 nested_request = false \/
   authority nested_request = "") /\
  STAGING_HOST default_config <> "" /\
  authority_host (STAGING_HOST default_config) = STAGING_HOST default_config /\
  startswith
    (slice_from (String.length MATCH_PREFIX - 1) (path nested_request))
    MATCH_PREFIX = true /\
  path (request_after authority_host default_config
          (exec (request (mitmproxy authority_host) default_config)
             (mkWorld nested_request [])))
  = "/apply".
Proof.
  split; [reflexivity|]. split; [left; reflexivity|].
  split; [discriminate|].
  split; [reflexivity|]. split; [reflexivity|].
  apply (second_call_trims_again authority_host default_config
           (mkWorld nested_request []));
    [reflexivity | left; reflexivity | discriminate | reflexivity
    | reflexivity].
Defined.

(** ** Paths at the edge of the prefix *)

(** X6 — a path shorter than the eighteen characters of the prefix is
    never rewritten, whatever the host: in particular the prefix
    without its final slash and the empty path are ignored. *)
Theorem short_path_ignored
  (pa : string -> string) (cfg : Config) (w : World) :
  String.length (path (flow_request w)) < String.length MATCH_PREFIX ->
  request_after pa cfg w = flow_request w /\
  log_after pa cfg w
  = (ctx_log w ++
       [Ignored (method (flow_request w)) (pretty_host pa (flow_request w))
          (path (flow_request w))])%list.
Proof.
  intros Hlen.
  assert (Hrule : rule_matches (mitmproxy pa) cfg (flow_request w) = false).
  { destruct (rule_matches _ _ _) eqn:E; [|reflexivity].
    apply rule_matches_iff in E as [_ Hp].
    apply startswith_length in Hp. lia. }
  split; [now apply request_after_unmatched|].
  now rewrite log_after_mitmproxy, Hrule.
Qed.

Lemma short_path_ignored_witness :
  String.length (path stem_request) < String.length MATCH_PREFIX /\
  request_after authority_host default_config (mkWorld stem_request [])
  = stem_request.
Proof.
  split; [vm_compute; lia|].
  apply (short_path_ignored authority_host default_config
           (mkWorld stem_request [])).
  vm_compute; lia.
Defined.

(** X7 — the trimming loses nothing: the original path of a matched
    request is the prefix without its final slash followed by the
    rewritten path, so two matched requests that end with the same path
    started with the same path. *)
Theorem trimmed_path_round_trip
  (pa : string -> string) (cfg : Config) (w1 w2 : World) :
  rule_matches (mitmproxy pa) cfg (flow_request w1) = true ->
  rule_matches (mitmproxy pa) cfg (flow_request w2) = true ->
  path (flow_request w1)
  = slice_to (String.length MATCH_PREFIX - 1) MATCH_PREFIX
      ++ path (request_after pa cfg w1) /\
  (path (request_after pa cfg w1) = path (request_after pa cfg w2) ->
   path (flow_request w1) = path (flow_request w2)).
Proof.
  intros H1 H2.
  assert (Hback : forall w,
             rule_matches (mitmproxy pa) cfg (flow_request w) = true ->
             path (flow_request w)
             = slice_to (String.length MATCH_PREFIX - 1) MATCH_PREFIX
                 ++ path (request_after pa cfg w)).
  { intros w Hw. rewrite (request_after_matched _ _ _ Hw), rewritten_path.
    apply rule_matches_iff in Hw as [_ Hp].
    apply startswith_split in Hp as [rest ->]. reflexivity. }
  split; [now apply Hback|].
  intros Heq. rewrite (Hback w1 H1), (Hback w2 H2). now rewrite Heq.
Qed.

Lemma trimmed_path_round_trip_witness :
  rule_matches (mitmproxy authority_host) default_config secure_request
  = true /\
  rule_matches (mitmproxy authority_host) default_config nested_request
  = true /\
  path secure_request
  = slice_to (String.length MATCH_PREFIX - 1) MATCH_PREFIX
      ++ path (request_after authority_host default_config
                 (mkWorld secure_request [])).
Proof.
  split; [reflexivity|]. split; [reflexivity|].
  apply (trimmed_path_round_trip authority_host default_config
           (mkWorld secure_request []) (mkWorld nested_request []));
    reflexivity.
Defined.

(** X8 — a match always changes the request: the rewritten path is
    exactly [len(MATCH_PREFIX) - 1] characters shorter than the
    original and never empty, so the request object after the call
    differs from the one before. *)
Theorem matched_path_shrinks
  (pa : string -> string) (cfg : Config) (w : World) :
  rule_matches (mitmproxy pa) cfg (flow_request w) = true ->
  String.length (path (flow_request w))
  = String.length (path (request_after pa cfg w))
    + (String.length MATCH_PREFIX - 1) /\
  1 <= String.length (path (request_after pa cfg w)) /\
  request_after pa cfg w <> flow_request w.
Proof.
  intros Hrule.
  assert (Hlen : String.length (path (flow_request w))
                 = String.length (path (request_after pa cfg w))
                   + (String.length MATCH_PREFIX - 1)
                 /\ 1 <= String.length (path (request_after pa cfg w))).
  { rewrite (request_after_matched _ _ _ Hrule), rewritten_path.
    apply rule_matches_iff in Hrule as [_ Hp].
    apply startswith_split in Hp as [rest ->].
    rewrite slice_match_prefix. simpl. lia. }
  destruct Hlen as [Hlen Hpos].
  split; [exact Hlen|]. split; [exact Hpos|].
  intros Heq. rewrite Heq in Hlen. simpl in Hlen. lia.
Qed.

Lemma matched_path_shrinks_witness :
  rule_matches (mitmproxy authority_host) default_config staging_request
  = true /\
  String.length (path staging_request)
  = String.length
      (path (request_after authority_host default_config
               (mkWorld staging_request [])))
    + (String.length MATCH_PREFIX - 1).
Proof.
  split; [reflexivity|].
  apply (matched_path_shrinks authority_host default_config
           (mkWorld staging_request [])); reflexivity.
Defined.
